(** * Proj.4 core shim (Projections/Core-x64/Core.cpp)

    The translation unit exports seven [__stdcall] entry points, each of which
    is a single call into the external PROJ.4 library ([proj_api.h]).  The
    library is not part of the translation unit, so it appears here as an
    interface ([ProjApi]) over an arbitrary private state; the entry points
    are programs that issue calls against that interface, and every theorem
    about them is stated for all implementations of it. *)

From Stdlib Require Import ZArith Lia Bool.
From Stdlib Require Import Floats.SpecFloat.
From stdpp Require Import base option list gmap strings.

Local Open Scope Z_scope.

(** ** C data *)

(** An address: [void*], [projPJ], [double*].  [long] and [int] arguments are
    carried as integers; the shim does no arithmetic on them. *)
Abbreviation ptr := Z (only parsing).
Abbreviation c_long := Z (only parsing).
Abbreviation c_int := Z (only parsing).

Definition NULL : ptr := 0.

(** A [double] is an IEEE-754 binary64 datum. *)
Abbreviation double := spec_float (only parsing).

Definition HUGE_VAL : double := S754_infinity false.

Definition sizeof_double : Z := 8.

(** [p + k] for [double* p]. *)
Definition ptr_add (p : ptr) (k : Z) : ptr := p + sizeof_double * k.

(** A [double&] parameter: the caller's object, known by its address. *)
Record ref := Ref { address_of : ptr }.

(** [(projPJ)hdl]: [projPJ] is [void*], the cast only drops [const]. *)
Definition projPJ_cast (hdl : ptr) : ptr := hdl.

(** [e ? true : false] for an [int] condition [e]. *)
Definition c_truth (e : c_int) : bool := negb (e =? 0).

(** ** The external library *)

(** What a call can touch: the caller's memory and the library's own state. *)
Record world (S : Type) := World { heap : gmap Z double; lib_state : S }.
Arguments World {S} _ _.
Arguments heap {S} _.
Arguments lib_state {S} _.

(** [proj_api.h], as far as Core.cpp uses it.  [None] is a fault raised inside
    the library (an access violation, say). *)
Class ProjApi (S : Type) := {
  pj_init_plus : string → world S → option (world S * ptr);
  pj_is_latlong : ptr → world S → option (world S * c_int);
  pj_free : ptr → world S → option (world S * unit);
  pj_transform :
    ptr → ptr → c_long → c_int → ptr → ptr → ptr →
    world S → option (world S * c_int)
}.

(** A call into the library, indexed by the type of what it returns. *)
Inductive call : Type → Type :=
| Pj_init_plus (definition : string) : call ptr
| Pj_is_latlong (pj : ptr) : call c_int
| Pj_free (pj : ptr) : call unit
| Pj_transform (src dst : ptr) (point_count : c_long) (point_offset : c_int)
    (x y z : ptr) : call c_int.

(** One completed call, with what the library answered. *)
Inductive event : Type :=
| Ev_init_plus (definition : string) (ret : ptr)
| Ev_is_latlong (pj : ptr) (ret : c_int)
| Ev_free (pj : ptr)
| Ev_transform (src dst : ptr) (point_count : c_long) (point_offset : c_int)
    (x y z : ptr) (ret : c_int).

Definition log {R} (c : call R) : R → event :=
  match c in call R return R → event with
  | Pj_init_plus s => Ev_init_plus s
  | Pj_is_latlong pj => Ev_is_latlong pj
  | Pj_free pj => λ _, Ev_free pj
  | Pj_transform src dst n off x y z => Ev_transform src dst n off x y z
  end.

(** The handles a call hands to the library. *)
Definition handles_received {R} (c : call R) : list ptr :=
  match c with
  | Pj_init_plus _ => []
  | Pj_is_latlong pj => [pj]
  | Pj_free pj => [pj]
  | Pj_transform src dst _ _ _ _ _ => [src; dst]
  end.

(** ** Programs of the shim *)

(** A function body of Core.cpp: it returns, or calls the library and goes on
    with the answer.  There is no constructor for reading or writing anything
    else: the translation unit has no globals and no statics. *)
Inductive shim (A : Type) : Type :=
| Ret (a : A)
| Extern {R : Type} (c : call R) (k : R → shim A).
Arguments Ret {A} _.
Arguments Extern {A R} _ _.

Fixpoint bind {A B} (m : shim A) (f : A → shim B) : shim B :=
  match m with
  | Ret a => f a
  | Extern c k => Extern c (λ r, bind (k r) f)
  end.

#[export] Instance shim_ret : MRet shim := @Ret.
#[export] Instance shim_bind : MBind shim := λ A B f m, bind m f.

Definition extern {R} (c : call R) : shim R := Extern c Ret.

(** ** Core.cpp *)

Definition initProjection (wkt : string) : shim ptr :=
  extern (Pj_init_plus wkt).

Definition isLatLon (hdl : ptr) : shim bool :=
  e ← extern (Pj_is_latlong (projPJ_cast hdl));
  mret (if c_truth e then true else false).

Definition freeProjection (hdl : ptr) : shim unit :=
  extern (Pj_free (projPJ_cast hdl)).

Definition transformPoints (src dst : ptr) (point_count : c_long)
    (point_offset : c_int) (x y z : ptr) : shim c_int :=
  extern (Pj_transform (projPJ_cast src) (projPJ_cast dst)
            point_count point_offset x y z).

Definition transformSimplePoints (src dst : ptr) (point_count : c_long)
    (point_offset : c_int) (x y : ptr) : shim c_int :=
  extern (Pj_transform (projPJ_cast src) (projPJ_cast dst)
            point_count point_offset x y NULL).

Definition transformPoint (src dst : ptr) (x y z : ref) : shim c_int :=
  extern (Pj_transform (projPJ_cast src) (projPJ_cast dst) 1 0
            (address_of x) (address_of y) (address_of z)).

Definition transformSimplePoint (src dst : ptr) (x y : ref) : shim c_int :=
  extern (Pj_transform (projPJ_cast src) (projPJ_cast dst) 1 0
            (address_of x) (address_of y) NULL).

(** ** Running a program against a library *)

Section Run.
Context {S : Type} {L : ProjApi S}.

Definition respond {R} (c : call R) : world S → option (world S * R) :=
  match c with
  | Pj_init_plus s => pj_init_plus s
  | Pj_is_latlong pj => pj_is_latlong pj
  | Pj_free pj => pj_free pj
  | Pj_transform src dst n off x y z => pj_transform src dst n off x y z
  end.

(** The world the program leaves, the calls it made in order, its result. *)
Fixpoint run {A} (p : shim A) (w : world S)
    : option (world S * list event * A) :=
  match p with
  | Ret a => Some (w, [], a)
  | Extern c k =>
      '(w1, r) ← respond c w;
      '(w2, t, a) ← run (k r) w1;
      Some (w2, log c r :: t, a)
  end.

(** What one forwarded call amounts to: the library's world, the one
    event, the answer passed through [post]. *)
Definition forwarded {R A} (c : call R) (post : R → A) (w : world S)
    : option (world S * list event * A) :=
  '(w1, r) ← respond c w; Some (w1, [log c r], post r).
End Run.


(** ** The exported interface (Core.h) *)

(** One invocation of an exported entry point, indexed by its return type. *)
Inductive invocation : Type → Type :=
| InitProjection (wkt : string) : invocation ptr
| IsLatLon (hdl : ptr) : invocation bool
| FreeProjection (hdl : ptr) : invocation unit
| TransformPoints (src dst : ptr) (point_count : c_long)
    (point_offset : c_int) (x y z : ptr) : invocation c_int
| TransformSimplePoints (src dst : ptr) (point_count : c_long)
    (point_offset : c_int) (x y : ptr) : invocation c_int
| TransformPoint (src dst : ptr) (x y z : ref) : invocation c_int
| TransformSimplePoint (src dst : ptr) (x y : ref) : invocation c_int.

Definition exported {A} (op : invocation A) : shim A :=
  match op with
  | InitProjection wkt => initProjection wkt
  | IsLatLon hdl => isLatLon hdl
  | FreeProjection hdl => freeProjection hdl
  | TransformPoints src dst n off x y z => transformPoints src dst n off x y z
  | TransformSimplePoints src dst n off x y =>
      transformSimplePoints src dst n off x y
  | TransformPoint src dst x y z => transformPoint src dst x y z
  | TransformSimplePoint src dst x y => transformSimplePoint src dst x y
  end.

(** The handles the caller passes in an invocation. *)
Definition handles_passed {A} (op : invocation A) : list ptr :=
  match op with
  | InitProjection _ => []
  | IsLatLon hdl => [hdl]
  | FreeProjection hdl => [hdl]
  | TransformPoints src dst _ _ _ _ _ => [src; dst]
  | TransformSimplePoints src dst _ _ _ _ => [src; dst]
  | TransformPoint src dst _ _ _ => [src; dst]
  | TransformSimplePoint src dst _ _ => [src; dst]
  end.

(** ** A small library behind the interface

    A stand-in for the external library, small enough to evaluate, used
    only to run the entry points on concrete inputs: a projection is a
    latitude/longitude system with its axes either east-north-up or
    west-south-up, and a transform between two systems of different
    orientation negates x and y.  A point whose latitude lies outside
    [-90, 90] (or is not a number) cannot be transformed.  The library
    comes in two variants that differ in what happens to such a point.
    Nothing about the real library is read off it. *)

Module Axis.

(** The library's own state: the projections it has handed out, by
    handle, and where the next one goes. *)
Record state := State { live : gmap Z bool; brk : Z }.

Definition boot : state := State ∅ 4096.

(** [Some reversed] for the two definitions the library knows. *)
Definition parse (definition : string) : option bool :=
  if decide (definition = "+proj=latlong") then Some false
  else if decide (definition = "+proj=latlong +axis=wsu") then Some true
  else None.

Definition double_of_Z (n : Z) : double := binary_normalize 53 1024 n 0 false.

Definition finite (d : double) : bool :=
  match d with
  | S754_zero _ | S754_finite _ _ _ => true
  | S754_infinity _ | S754_nan => false
  end.

Definition transformable (x y : ptr) (h : gmap Z double) : bool :=
  match h !! x, h !! y with
  | Some lon, Some lat => finite lon && SFleb (SFabs lat) (double_of_Z 90)
  | _, _ => false
  end.

Definition negate (x y : ptr) (h : gmap Z double) : gmap Z double :=
  alter SFopp x (alter SFopp y h).

Definition spoil (x y : ptr) (h : gmap Z double) : gmap Z double :=
  alter (λ _, HUGE_VAL) x (alter (λ _, HUGE_VAL) y h).

(** One point: transformed, or overwritten with [HUGE_VAL]. *)
Definition point (reversed : bool) (x y : ptr) (h : gmap Z double)
    : gmap Z double :=
  if transformable x y h then (if reversed then negate x y h else h)
  else spoil x y h.

Fixpoint points (reversed : bool) (n : nat) (off : Z) (x y : ptr)
    (h : gmap Z double) : gmap Z double :=
  match n with
  | O => h
  | Datatypes.S n' =>
      points reversed n' off (ptr_add x off) (ptr_add y off)
        (point reversed x y h)
  end.

Definition init (definition : string) (w : world state)
    : option (world state * ptr) :=
  match parse definition with
  | None => Some (w, NULL)
  | Some reversed =>
      let s := lib_state w in
      Some (World (heap w)
              (State (<[brk s := reversed]> (live s)) (brk s + 8)),
            brk s)
  end.

(** A handle the library did not hand out, [NULL] included, is
    dereferenced all the same: the call faults. *)
Definition is_latlong (pj : ptr) (w : world state)
    : option (world state * c_int) :=
  match live (lib_state w) !! pj with
  | Some _ => Some (w, 1)
  | None => None
  end.

Definition free (pj : ptr) (w : world state) : option (world state * unit) :=
  if decide (pj = NULL) then Some (w, tt)
  else
    match live (lib_state w) !! pj with
    | Some _ =>
        Some (World (heap w)
                (State (delete pj (live (lib_state w))) (brk (lib_state w))),
              tt)
    | None => None
    end.

(** [abort_single]: a call for a single point that cannot be transformed
    returns the error at once and writes nothing; in a batch such a point
    is overwritten and the batch goes on.  Without [abort_single] the
    point is overwritten in either case. *)
Definition transform (abort_single : bool) (src dst : ptr)
    (point_count : c_long) (point_offset : c_int) (x y z : ptr)
    (w : world state) : option (world state * c_int) :=
  match live (lib_state w) !! src, live (lib_state w) !! dst with
  | Some a, Some b =>
      if abort_single && (point_count =? 1)
         && negb (transformable x y (heap w))
      then Some (w, -14)
      else
        Some (World
                (points (xorb a b) (Z.to_nat point_count) point_offset x y
                   (heap w))
                (lib_state w),
              0)
  | _, _ => Some (w, -1)
  end.

Definition api (abort_single : bool) : ProjApi state :=
  {| pj_init_plus := init;
     pj_is_latlong := is_latlong;
     pj_free := free;
     pj_transform := transform abort_single |}.

(** The variant that overwrites every point it cannot transform. *)
Definition lenient : ProjApi state := api false.

(** The variant that aborts a single-point call instead. *)
Definition strict : ProjApi state := api true.

(** A caller with two projections open (east-north-up at 4096,
    west-south-up at 4104) and three points in arrays of stride 1:
    x at 1000, y at 2000, z at 3000.  The first point has latitude 100. *)
Definition sample : world state :=
  World
    (list_to_map
       [(1000, double_of_Z 10); (1008, double_of_Z 20); (1016, double_of_Z 30);
        (2000, double_of_Z 100); (2008, double_of_Z 45); (2016, double_of_Z (-45));
        (3000, double_of_Z 0); (3008, double_of_Z 0); (3016, double_of_Z 0)])
    (State (<[4096 := false]> (<[4104 := true]> ∅)) 4112).

End Axis.

(** ** Sequences of invocations *)

(** A call, whatever it returns. *)
Record any_call := Call { answer_type : Type; called : call answer_type }.
Arguments Call {answer_type} _.

(** An invocation, whatever it returns. *)
Record any_invocation :=
  Invoke { result_type : Type; invoked : invocation result_type }.
Arguments Invoke {result_type} _.

(** The library call in the body of each entry point of Core.cpp. *)
Definition dispatched {A} (op : invocation A) : any_call :=
  match op with
  | InitProjection wkt => Call (Pj_init_plus wkt)
  | IsLatLon hdl => Call (Pj_is_latlong hdl)
  | FreeProjection hdl => Call (Pj_free hdl)
  | TransformPoints src dst n off x y z =>
      Call (Pj_transform src dst n off x y z)
  | TransformSimplePoints src dst n off x y =>
      Call (Pj_transform src dst n off x y NULL)
  | TransformPoint src dst x y z =>
      Call (Pj_transform src dst 1 0
              (address_of x) (address_of y) (address_of z))
  | TransformSimplePoint src dst x y =>
      Call (Pj_transform src dst 1 0 (address_of x) (address_of y) NULL)
  end.

(** A caller invoking entry points one after the other, results dropped. *)
Fixpoint session (ops : list any_invocation) : shim unit :=
  match ops with
  | [] => mret tt
  | op :: ops' => _ ← exported (invoked op); session ops'
  end.

(** [e] records an answer to the call [c]. *)
Definition answers (c : any_call) (e : event) : Prop :=
  ∃ r : answer_type c, e = log (called c) r.

Section Replay.
Context {S : Type} {L : ProjApi S}.

(** The library driven directly, without the shim: the calls made in order,
    each on the world the one before left. *)
Fixpoint replay (cs : list any_call) (w : world S)
    : option (world S * list event) :=
  match cs with
  | [] => Some (w, [])
  | c :: cs' =>
      '(w1, r) ← respond (called c) w;
      '(w2, t) ← replay cs' w1;
      Some (w2, log (called c) r :: t)
  end.
End Replay.

(** * Forwarding *)

Ltac unfold_entry :=
  unfold initProjection, isLatLon, freeProjection, transformPoints,
    transformSimplePoints, transformPoint, transformSimplePoint,
    extern, projPJ_cast.

Section Forwarding.
Context {S : Type} {L : ProjApi S}.

Lemma run_extern {R A} (c : call R) (post : R → A) (w : world S) :
  run (Extern c (λ r, Ret (post r))) w = forwarded c post w.
Proof.
  unfold forwarded. simpl.
  destruct (respond c w) as [[w1 r]|]; reflexivity.
Qed.

Lemma run_bind {A B} (m : shim A) (f : A → shim B) (w : world S) :
  run (m ≫= f) w =
  '(w1, t1, a) ← run m w;
  '(w2, t2, b) ← run (f a) w1;
  Some (w2, t1 ++ t2, b).
Proof.
  revert w. induction m as [a|R c k IH]; intros w.
  - change (run (Ret a ≫= f) w) with (run (f a) w). simpl.
    destruct (run (f a) w) as [[[w2 t2] b]|]; reflexivity.
  - change (run (Extern c k ≫= f) w)
      with ('(w1, r) ← respond c w;
            '(w2, t, b) ← run (k r ≫= f) w1;
            Some (w2, log c r :: t, b)).
    simpl. destruct (respond c w) as [[w1 r]|]; simpl; [|reflexivity].
    rewrite IH.
    destruct (run (k r) w1) as [[[w2 t] a]|]; simpl; [|reflexivity].
    destruct (run (f a) w2) as [[[w3 t3] b]|]; reflexivity.
Qed.

Lemma log_inj {R} (c : call R) (r1 r2 : R) : log c r1 = log c r2 → r1 = r2.
Proof.
  destruct c; simpl; intros H; try (injection H; auto; fail).
  destruct r1, r2; reflexivity.
Qed.

(** C1. [transformPoints] makes exactly one library call, [pj_transform]
    with the seven arguments it was given, leaves the world as that call
    left it, and returns the call's status as it is; it faults only where
    the call does. *)
Theorem transformPoints_forwards (src dst : ptr) (point_count : c_long)
    (point_offset : c_int) (x y z : ptr) (w : world S) :
  run (transformPoints src dst point_count point_offset x y z) w =
  '(w1, status) ← pj_transform src dst point_count point_offset x y z w;
  Some (w1, [Ev_transform src dst point_count point_offset x y z status],
        status).
Proof.
  unfold_entry. rewrite (run_extern _ id). reflexivity.
Qed.

(** C2. [isLatLon] makes the one call [pj_is_latlong] on the handle and
    returns [true] exactly when the library's [int] answer is not zero,
    [false] exactly when it is zero. *)
Theorem isLatLon_strict_boolean (hdl : ptr) (w : world S) :
  run (isLatLon hdl) w =
  '(w1, e) ← pj_is_latlong hdl w;
  Some (w1, [Ev_is_latlong hdl e], bool_decide (e ≠ 0)).
Proof.
  unfold_entry.
  change (run (Extern (Pj_is_latlong hdl) Ret ≫= _) w)
    with (run (Extern (Pj_is_latlong hdl)
                 (λ e, Ret (if c_truth e then true else false))) w).
  rewrite run_extern. unfold forwarded. simpl.
  destruct (pj_is_latlong hdl w) as [[w1 e]|]; simpl; [|reflexivity].
  do 2 f_equal. unfold c_truth.
  destruct (Z.eqb_spec e 0) as [->|Hne]; simpl negb; cbv iota.
  - reflexivity.
  - symmetry. apply bool_decide_eq_true_2, Hne.
Qed.

(** C3. [initProjection] makes the one call [pj_init_plus] on the
    definition string and returns the handle the library returned,
    whatever it is: the null handle when the library reports failure that
    way (the shim does not fault on it), a non-null handle otherwise.  It
    faults only where the library call itself does. *)
Theorem initProjection_returns_library_handle (wkt : string) (w : world S) :
  run (initProjection wkt) w =
    ('(w1, pj) ← pj_init_plus wkt w;
     Some (w1, [Ev_init_plus wkt pj], pj)) ∧
  (∀ w1, pj_init_plus wkt w = Some (w1, NULL) →
     run (initProjection wkt) w = Some (w1, [Ev_init_plus wkt NULL], NULL)) ∧
  (∀ w1 pj, pj ≠ NULL → pj_init_plus wkt w = Some (w1, pj) →
     run (initProjection wkt) w = Some (w1, [Ev_init_plus wkt pj], pj)).
Proof.
  assert (E : run (initProjection wkt) w =
              '(w1, pj) ← pj_init_plus wkt w;
              Some (w1, [Ev_init_plus wkt pj], pj)).
  { unfold_entry. rewrite (run_extern _ id). reflexivity. }
  split; [exact E|]. split.
  - intros w1 H. rewrite E, H. reflexivity.
  - intros w1 pj _ H. rewrite E, H. reflexivity.
Qed.

(** C4. [transformSimplePoints] is [transformPoints] with a null [z]: the
    same program, hence the same library call, the same world afterwards
    (x and y arrays included) and the same status. *)
Theorem transformSimplePoints_is_null_z (src dst : ptr)
    (point_count : c_long) (point_offset : c_int) (x y : ptr)
    (w : world S) :
  transformSimplePoints src dst point_count point_offset x y =
    transformPoints src dst point_count point_offset x y NULL ∧
  run (transformSimplePoints src dst point_count point_offset x y) w =
    run (transformPoints src dst point_count point_offset x y NULL) w ∧
  run (transformSimplePoints src dst point_count point_offset x y) w =
    forwarded (Pj_transform src dst point_count point_offset x y NULL) id w.
Proof.
  split; [reflexivity|]. split; [reflexivity|].
  unfold_entry. apply (run_extern _ id).
Qed.

(** C5. [transformPoint] on three referenced doubles is [transformPoints]
    with count 1, stride 0 and the addresses of those doubles, and
    [transformSimplePoint] is [transformSimplePoints] likewise: the same
    program, so the same world afterwards and the same status. *)
Theorem single_point_is_degenerate_batch (src dst : ptr) (x y z : ref)
    (w : world S) :
  (transformPoint src dst x y z =
     transformPoints src dst 1 0 (address_of x) (address_of y) (address_of z)
   ∧ run (transformPoint src dst x y z) w =
     run (transformPoints src dst 1 0
            (address_of x) (address_of y) (address_of z)) w) ∧
  (transformSimplePoint src dst x y =
     transformSimplePoints src dst 1 0 (address_of x) (address_of y)
   ∧ run (transformSimplePoint src dst x y) w =
     run (transformSimplePoints src dst 1 0
            (address_of x) (address_of y)) w).
Proof.
  split; split; unfold_entry; reflexivity.
Qed.

(** X1. [freeProjection] makes exactly one library call, [pj_free] on the
    handle it was given, leaves the world as that call left it and has
    nothing to return; it faults only where the call does. *)
Lemma freeProjection_forwards (hdl : ptr) (w : world S) :
  run (freeProjection hdl) w =
  '(w1, _) ← pj_free hdl w; Some (w1, [Ev_free hdl], tt).
Proof.
  unfold_entry. rewrite (run_extern _ id). unfold forwarded. simpl.
  destruct (pj_free hdl w) as [[w1 []]|]; reflexivity.
Qed.

(** C10. [transformPoints] and [transformSimplePoints] look at none of
    count, stride or the array addresses: whatever these are, the run is
    the one [pj_transform] call with them as given (and a null [z] for
    the second), and its status is the result. *)
Theorem batch_arguments_forwarded_unchecked (src dst : ptr)
    (point_count : c_long) (point_offset : c_int) (x y z : ptr)
    (w : world S) :
  run (transformPoints src dst point_count point_offset x y z) w =
    forwarded (Pj_transform src dst point_count point_offset x y z) id w ∧
  run (transformSimplePoints src dst point_count point_offset x y) w =
    forwarded (Pj_transform src dst point_count point_offset x y NULL) id w.
Proof.
  split; unfold_entry; apply (run_extern _ id).
Qed.
End Forwarding.

(** * The interface as a whole *)

(** Every exported entry point is one library call followed by a pure
    function of its answer. *)
Lemma exported_shape {A} (op : invocation A) :
  ∃ (R : Type) (c : call R) (post : R → A),
    exported op = Extern c (λ r, Ret (post r)) ∧
    handles_received c = handles_passed op.
Proof.
  destruct op; simpl; unfold_entry;
    (eexists _, _, (λ r, _); split; [reflexivity|reflexivity]).
Qed.

(** C8. Every exported operation is stateless at the shim layer.  The call
    it dispatches and the function it applies to the answer depend on its
    arguments alone; for every library and every world the run is exactly
    that one call, so the world afterwards (coordinate writes included) is
    the library's; equal library responses give equal runs; and two
    invocations with the same arguments that saw the same response, even
    from different libraries, return the same value. *)
Theorem exported_stateless {A} (op : invocation A) :
  ∃ (R : Type) (c : call R) (post : R → A),
    exported op = Extern c (λ r, Ret (post r)) ∧
    (∀ S (L : ProjApi S) (w : world S),
       run (exported op) w = forwarded c post w) ∧
    (∀ S (L : ProjApi S) (w1 w2 : world S),
       respond c w1 = respond c w2 →
       run (exported op) w1 = run (exported op) w2) ∧
    (∀ S1 (L1 : ProjApi S1) S2 (L2 : ProjApi S2)
       (w1 w1' : world S1) (w2 w2' : world S2) t1 t2 a1 a2,
       run (L := L1) (exported op) w1 = Some (w1', t1, a1) →
       run (L := L2) (exported op) w2 = Some (w2', t2, a2) →
       t1 = t2 → a1 = a2).
Proof.
  destruct (exported_shape op) as (R & c & post & E & _).
  exists R, c, post. split; [exact E|].
  assert (F : ∀ S (L : ProjApi S) (w : world S),
             run (exported op) w = forwarded c post w).
  { intros S L w. rewrite E. apply run_extern. }
  split; [exact F|]. split.
  - intros S L w1 w2 H. rewrite !F. unfold forwarded. rewrite H. reflexivity.
  - intros S1 L1 S2 L2 w1 w1' w2 w2' t1 t2 a1 a2 H1 H2 Ht.
    rewrite F in H1. rewrite F in H2. unfold forwarded in H1, H2.
    destruct (respond (L := L1) c w1) as [[u1 r1]|]; simpl in H1;
      [|discriminate].
    destruct (respond (L := L2) c w2) as [[u2 r2]|]; simpl in H2;
      [|discriminate].
    injection H1 as _ <- <-. injection H2 as _ <- <-.
    injection Ht as Hlog. apply log_inj in Hlog.
    rewrite Hlog. reflexivity.
Qed.

(** The boolean [isLatLon] makes of the library's answer. *)
Lemma c_truth_decide (e : c_int) :
  (if c_truth e then true else false) = bool_decide (e ≠ 0).
Proof.
  unfold c_truth. destruct (Z.eqb_spec e 0) as [->|Hne]; simpl.
  - reflexivity.
  - symmetry. apply bool_decide_eq_true_2, Hne.
Qed.

(** C9. No operation that takes a handle checks it.  For every handle,
    null included, and every library and world, each of [isLatLon],
    [freeProjection], [transformPoints], [transformSimplePoints],
    [transformPoint] and [transformSimplePoint] runs as the one library
    call on the handles as passed, and its result is a fixed function of
    the library's answer in which no handle occurs: the answer itself for
    the transforms and the free, its truth value for [isLatLon].  So the
    shim has no error branch of its own, before the call or after it: it
    returns nothing without the call, and nothing but the answer. *)
Theorem handles_forwarded_unchecked {S} {L : ProjApi S} (hdl src dst : ptr)
    (point_count : c_long) (point_offset : c_int) (x y z : ptr)
    (rx ry rz : ref) (w : world S) :
  run (isLatLon hdl) w =
    forwarded (Pj_is_latlong hdl) (λ e, bool_decide (e ≠ 0)) w ∧
  run (freeProjection hdl) w = forwarded (Pj_free hdl) id w ∧
  run (transformPoints src dst point_count point_offset x y z) w =
    forwarded (Pj_transform src dst point_count point_offset x y z) id w ∧
  run (transformSimplePoints src dst point_count point_offset x y) w =
    forwarded (Pj_transform src dst point_count point_offset x y NULL) id w ∧
  run (transformPoint src dst rx ry rz) w =
    forwarded
      (Pj_transform src dst 1 0
         (address_of rx) (address_of ry) (address_of rz)) id w ∧
  run (transformSimplePoint src dst rx ry) w =
    forwarded
      (Pj_transform src dst 1 0 (address_of rx) (address_of ry) NULL) id w.
Proof.
  split.
  { unfold_entry.
    change (run (Extern (Pj_is_latlong hdl) Ret ≫= _) w)
      with (run (Extern (Pj_is_latlong hdl)
                   (λ e, Ret (if c_truth e then true else false))) w).
    rewrite run_extern. unfold forwarded.
    destruct (respond (Pj_is_latlong hdl) w) as [[w1 e]|]; simpl;
      [|reflexivity].
    rewrite c_truth_decide. reflexivity. }
  repeat split; unfold_entry; apply (run_extern _ id).
Qed.

(** * The theorems at the small library *)

(** C3 at the small library: a definition it does not know, and one it
    does. *)
Lemma initProjection_returns_library_handle_witness :
  run (L := Axis.strict) (initProjection "+proj=utm") Axis.sample =
    Some (Axis.sample, [Ev_init_plus "+proj=utm" NULL], NULL) ∧
  ∃ w1,
    run (L := Axis.strict) (initProjection "+proj=latlong") Axis.sample =
    Some (w1, [Ev_init_plus "+proj=latlong" 4112], 4112).
Proof.
  split.
  - destruct (initProjection_returns_library_handle (L := Axis.strict)
                "+proj=utm" Axis.sample) as (_ & Hnull & _).
    apply Hnull. reflexivity.
  - destruct (initProjection_returns_library_handle (L := Axis.strict)
                "+proj=latlong" Axis.sample) as (_ & _ & Hlive).
    eexists. apply Hlive; [discriminate | reflexivity].
Defined.

(** C8 at the small library: [isLatLon] on the same handle against the two
    variants, which answer alike. *)
Lemma exported_stateless_witness :
  ∃ a1 a2 : bool,
    run (L := Axis.strict) (exported (IsLatLon 4104)) Axis.sample =
      Some (Axis.sample, [Ev_is_latlong 4104 1], a1) ∧
    run (L := Axis.lenient) (exported (IsLatLon 4104)) Axis.sample =
      Some (Axis.sample, [Ev_is_latlong 4104 1], a2) ∧
    a1 = a2.
Proof.
  exists true, true.
  assert (H1 : run (L := Axis.strict) (exported (IsLatLon 4104)) Axis.sample =
               Some (Axis.sample, [Ev_is_latlong 4104 1], true))
    by reflexivity.
  assert (H2 : run (L := Axis.lenient) (exported (IsLatLon 4104)) Axis.sample =
               Some (Axis.sample, [Ev_is_latlong 4104 1], true))
    by reflexivity.
  split; [exact H1|]. split; [exact H2|].
  destruct (exported_stateless (IsLatLon 4104)) as (R & c & post & _ & _ & _ & Hdet).
  exact (Hdet _ Axis.strict _ Axis.lenient _ _ _ _ _ _ _ _ H1 H2 eq_refl).
Defined.

(** * The entry points at work *)

(** A definition the library does not know: the null handle comes back. *)
Example initProjection_unknown_definition :
  (λ r, (r.1.2, r.2)) <$>
    run (L := Axis.strict) (initProjection "+proj=utm") Axis.sample =
  Some ([Ev_init_plus "+proj=utm" NULL], NULL).
Proof. vm_compute. reflexivity. Qed.

Example initProjection_known_definition :
  (λ r, (r.1.2, r.2)) <$>
    run (L := Axis.strict) (initProjection "+proj=latlong") Axis.sample =
  Some ([Ev_init_plus "+proj=latlong" 4112], 4112).
Proof. vm_compute. reflexivity. Qed.

(** The null handle of a failed [initProjection] handed on to [isLatLon]
    reaches the library, and the fault is the library's. *)
Example isLatLon_after_failed_init :
  run (L := Axis.strict)
    (hdl ← initProjection "+proj=utm"; isLatLon hdl) Axis.sample = None
  ∧ run (L := Axis.strict) (isLatLon NULL) Axis.sample =
    forwarded (L := Axis.strict) (Pj_is_latlong NULL)
      (λ e, if c_truth e then true else false) Axis.sample.
Proof. split; vm_compute; reflexivity. Qed.

Example isLatLon_live_handle :
  (λ r, (r.1.2, r.2)) <$>
    run (L := Axis.strict) (isLatLon 4104) Axis.sample =
  Some ([Ev_is_latlong 4104 1], true).
Proof. vm_compute. reflexivity. Qed.

(** Null handles, a negative count, a negative stride and null arrays all
    reach the library as they are; the status is the library's. *)
Example transformPoints_degenerate_arguments :
  (λ r, (r.1.2, r.2)) <$>
    run (L := Axis.strict)
      (transformPoints NULL NULL (-3) (-1) NULL NULL NULL) Axis.sample =
  Some ([Ev_transform NULL NULL (-3) (-1) NULL NULL NULL (-1)], -1).
Proof. vm_compute. reflexivity. Qed.

(** A handle's life from a freshly loaded library: created, queried,
    freed; three calls, in that order, and nothing in between. *)
Example handle_lifecycle :
  (λ r, (lib_state r.1.1, r.1.2, r.2)) <$>
    run (L := Axis.strict)
      (hdl ← initProjection "+proj=latlong +axis=wsu";
       geographic ← isLatLon hdl;
       _ ← freeProjection hdl;
       mret geographic)
      (World ∅ Axis.boot) =
  Some (Axis.State ∅ 4104,
        [Ev_init_plus "+proj=latlong +axis=wsu" 4096;
         Ev_is_latlong 4096 1;
         Ev_free 4096],
        true).
Proof. vm_compute. reflexivity. Qed.

(** * More on the entry points *)

(** Every entry point is the call [dispatched] names, then a pure function
    of the answer. *)
Lemma exported_dispatched {A} (op : invocation A) :
  ∃ post : answer_type (dispatched op) → A,
    exported op = Extern (called (dispatched op)) (λ r, Ret (post r)).
Proof.
  destruct op; simpl; unfold_entry; (eexists (λ r, _); reflexivity).
Qed.

Section Sessions.
Context {S : Type} {L : ProjApi S}.

(** X2. [transformPoint] and [transformSimplePoint] each make exactly one
    [pj_transform] call, for one point with stride 0 at the addresses of
    the caller's doubles ([z] null for the second), whatever the handles
    and the doubles are; the world afterwards is that call's and the status
    is returned as it is. *)
Theorem single_point_forwards (src dst : ptr) (x y z : ref) (w : world S) :
  run (transformPoint src dst x y z) w =
    ('(w1, status) ←
       pj_transform src dst 1 0 (address_of x) (address_of y) (address_of z) w;
     Some (w1,
           [Ev_transform src dst 1 0
              (address_of x) (address_of y) (address_of z) status],
           status)) ∧
  run (transformSimplePoint src dst x y) w =
    ('(w1, status) ←
       pj_transform src dst 1 0 (address_of x) (address_of y) NULL w;
     Some (w1,
           [Ev_transform src dst 1 0 (address_of x) (address_of y) NULL status],
           status)).
Proof.
  split; unfold_entry; rewrite (run_extern _ id); reflexivity.
Qed.

Lemma replay_answers (cs : list any_call) (w w1 : world S) (t : list event) :
  replay cs w = Some (w1, t) → Forall2 answers cs t.
Proof.
  revert w w1 t. induction cs as [|c cs IH]; intros w w1 t; simpl.
  - intros [= _ <-]. constructor.
  - destruct (respond (called c) w) as [[u r]|]; simpl; [|discriminate].
    destruct (replay cs u) as [[u' t']|] eqn:E; simpl; [|discriminate].
    intros [= _ <-]. constructor.
    + exists r. reflexivity.
    + eapply IH, E.
Qed.

(** A session against the shim and the replay of its calls against the
    library come to the same. *)
Lemma session_replay (ops : list any_invocation) (w : world S) :
  (λ r, (r.1.1, r.1.2)) <$> run (session ops) w =
  replay ((λ op, dispatched (invoked op)) <$> ops) w.
Proof.
  revert w. induction ops as [|[A op] ops IH]; intros w.
  - reflexivity.
  - change (session (Invoke op :: ops))
      with (exported op ≫= λ _, session ops).
    rewrite run_bind.
    destruct (exported_dispatched op) as [post ->].
    rewrite run_extern. unfold forwarded.
    change (replay ((λ op, dispatched (invoked op)) <$> Invoke op :: ops) w)
      with ('(w1, r) ← respond (called (dispatched op)) w;
            '(w2, t) ← replay ((λ op, dispatched (invoked op)) <$> ops) w1;
            Some (w2, log (called (dispatched op)) r :: t)).
    destruct (respond (called (dispatched op)) w) as [[w1 r]|]; simpl;
      [|reflexivity].
    rewrite <- IH.
    destruct (run (session ops) w1) as [[[w2 t] u]|]; reflexivity.
Qed.

(** X3. A sequence of invocations is the sequence of their library calls
    and nothing more: the world it leaves and the trace of calls are those
    of driving the library directly with the dispatched calls in the same
    order, and it faults exactly when that does.  Nothing is cached,
    merged, retried, reordered or skipped from one invocation to the
    next. *)
Theorem session_is_replay (ops : list any_invocation) (w : world S) :
  (λ r, (r.1.1, r.1.2)) <$> run (session ops) w =
    replay ((λ op, dispatched (invoked op)) <$> ops) w ∧
  (run (session ops) w = None ↔
   replay ((λ op, dispatched (invoked op)) <$> ops) w = None).
Proof.
  pose proof (session_replay ops w) as E.
  split; [exact E|].
  rewrite <- E.
  destruct (run (session ops) w) as [[[w1 t] u]|]; simpl; split;
    (reflexivity || discriminate).
Qed.

(** X4. When a sequence of invocations returns, the library was called
    exactly once per invocation, in the order of the invocations, and the
    call made for each is the one its entry point dispatches. *)
Theorem session_trace (ops : list any_invocation) (w w1 : world S)
    (t : list event) (u : unit) :
  run (session ops) w = Some (w1, t, u) →
  length t = length ops ∧
  Forall2 (λ op e, answers (dispatched (invoked op)) e) ops t.
Proof.
  intros H.
  assert (R : replay ((λ op, dispatched (invoked op)) <$> ops) w
              = Some (w1, t)).
  { rewrite <- session_replay, H. reflexivity. }
  apply replay_answers in R.
  apply (proj1 (Forall2_fmap_l (λ op, dispatched (invoked op)) answers ops t))
    in R.
  split; [|exact R].
  symmetry. eapply Forall2_length, R.
Qed.
End Sessions.

(** X5. The shim keeps no record of freed handles.  After
    [freeProjection hdl] any invocation, on [hdl] again or on another
    handle, still makes its library call with the handles it was passed: a
    second [freeProjection hdl] reaches [pj_free] a second time, and a
    query or transform on [hdl] reaches the library with the freed
    handle. *)
Theorem freed_handle_still_forwarded (hdl : ptr) {A} (op : invocation A) :
  handles_received (called (dispatched op)) = handles_passed op ∧
  ∃ post : answer_type (dispatched op) → A,
    ∀ S (L : ProjApi S) (w : world S),
      run (freeProjection hdl ≫= λ _, exported op) w =
      '(w1, _) ← pj_free hdl w;
      '(w2, r) ← respond (called (dispatched op)) w1;
      Some (w2, [Ev_free hdl; log (called (dispatched op)) r], post r).
Proof.
  split; [destruct op; reflexivity|].
  destruct (exported_dispatched op) as [post E].
  exists post. intros S L w.
  assert (F : ∀ u, run (exported op) u
                   = forwarded (called (dispatched op)) post u).
  { intros u. rewrite E. apply run_extern. }
  assert (G : run (freeProjection hdl) w = forwarded (Pj_free hdl) id w).
  { apply (run_extern _ id). }
  rewrite run_bind, G. unfold forwarded at 1.
  change (respond (Pj_free hdl) w) with (pj_free hdl w).
  destruct (pj_free hdl w) as [[w1 []]|]; cbn [mbind option_bind];
    [|reflexivity].
  rewrite F. unfold forwarded.
  destruct (respond (called (dispatched op)) w1) as [[w2 r]|]; reflexivity.
Qed.

(** X4 at the small library: a failed [initProjection], a query, a
    two-axis batch and a free, on the sample world. *)
Lemma session_trace_witness :
  ∃ w1 t,
    run (L := Axis.strict)
      (session [Invoke (InitProjection "+proj=utm");
                Invoke (IsLatLon 4104);
                Invoke (TransformSimplePoints 4096 4104 3 1 1000 2000);
                Invoke (FreeProjection 4096)])
      Axis.sample = Some (w1, t, tt) ∧
    (length t =
       length [Invoke (InitProjection "+proj=utm");
               Invoke (IsLatLon 4104);
               Invoke (TransformSimplePoints 4096 4104 3 1 1000 2000);
               Invoke (FreeProjection 4096)] ∧
     Forall2 (λ op e, answers (dispatched (invoked op)) e)
       [Invoke (InitProjection "+proj=utm");
        Invoke (IsLatLon 4104);
        Invoke (TransformSimplePoints 4096 4104 3 1 1000 2000);
        Invoke (FreeProjection 4096)]
       t).
Proof.
  eexists _, _. split; [vm_compute; reflexivity|].
  refine (session_trace (L := Axis.strict) _ Axis.sample _ _ tt _).
  vm_compute. reflexivity.
Defined.
